(** * Polynomial fitting notebook: model evaluator, error evaluator,
      data generator and fit engine

    Shallow embedding of the four functions defined in
    [hands-on/010_underfitting_overfitting_lazy.ipynb]:
    [fit_func], [compute_errors], [generate_noisy_data] and
    [compute_params], and of the cells that call them.

    Numbers.  The Python functions are duck-typed; they are embedded at
    the exact rationals [Qc] (Python's [fractions.Fraction], which is kept
    in lowest terms exactly like [Qc]).  Rounding and overflow of binary
    floating point are outside this model; [target_function], whose
    literals [1.0] and [5.0] force binary floating point on every
    argument, is therefore not embedded.  Integers ([len], [degree],
    [nr_points]) are [nat] or [Z] as Python has them.

    Effects.  The notebook calls three library routines: the random source
    ([np.random.seed], [np.random.uniform], [np.random.normal]) and the
    least-squares solver ([scipy.optimize.curve_fit]).  A program of the
    core is a tree of such calls ([Core]); [run] executes it against a
    random stream and a solver, propagating every exception, since the
    notebook has no [try].  The argument checks of numpy's and scipy's
    routines ([uniform], [normal], [valid_seed], [scipy_curve_fit]) are
    written from the libraries' documented behaviour; the random bits and
    the numerical minimisation stay parameters. *)

From Stdlib Require Import List ZArith QArith Qcanon Lia Bool Arith Permutation.
Import ListNotations.

Set Implicit Arguments.

(** ** Python values *)

(** The exception classes that occur. *)
Inductive exn : Type :=
| ZeroDivisionError
| ValueError
| TypeError
| RuntimeError.

(** Outcome of evaluating a Python expression. *)
Inductive Result (A : Type) : Type :=
| Ok (a : A)
| Raise (e : exn).

Arguments Raise {A} e.

Definition is_ok {A} (r : Result A) : bool :=
  match r with Ok _ => true | Raise _ => false end.

(** A Python [int] used as a number. *)
Definition of_int (z : Z) : Qc := Q2Qc (inject_Z z).

(** [len(xs)] used as a number. *)
Definition of_len {A} (xs : list A) : Qc := of_int (Z.of_nat (length xs)).

Local Open Scope Qc_scope.

(** The builtin [sum]: starts from the integer [0] and adds the items
    from left to right. *)
Definition py_sum (items : list Qc) : Qc := fold_left Qcplus items 0.

(** True division [a / b]. *)
Definition py_truediv (a b : Qc) : Result Qc :=
  if Qc_eq_dec b 0 then Raise ZeroDivisionError else Ok (a / b).

(** ** Model evaluator *)

(** [x_facts = [x**i for i in range(len(params))]] *)
Definition x_facts (x : Qc) (params : list Qc) : list Qc :=
  map (fun i => x ^ i) (seq 0 (length params)).

(** [def fit_func(x, *params)]:
    [sum(param*x_fact for param, x_fact in zip(params, x_facts))] *)
Definition fit_func (x : Qc) (params : list Qc) : Qc :=
  py_sum (map (fun '(param, x_fact) => param * x_fact)
              (combine params (x_facts x params))).

(** ** Error evaluator *)

(** [def compute_errors(func, xs, ys, params)]:
    [sum((y - func(x, *params))**2 for x, y in zip(xs, ys))/len(xs)] *)
Definition compute_errors (func : Qc -> list Qc -> Qc)
    (xs ys : list Qc) (params : list Qc) : Result Qc :=
  py_truediv
    (py_sum (map (fun '(x, y) => (y - func x params) ^ 2) (combine xs ys)))
    (of_len xs).

(** ** Calls into numpy and scipy *)

(** The model function handed to the solver: [f(x, *params)]. *)
Definition model : Type := Qc -> list Qc -> Qc.

(** The covariance estimate that [curve_fit] returns next to the
    parameters. *)
Definition covariance : Type := list (list Qc).

(** A computation of the core: it returns, raises, or calls one of the
    library routines and continues with what the routine returned. *)
Inductive Core (A : Type) : Type :=
| Return (a : A)
| Throw (e : exn)
| NpRandomSeed (seed : Z) (k : Core A)
| NpRandomUniform (low high : Qc) (size : Z) (k : list Qc -> Core A)
| NpRandomNormal (loc scale : Qc) (size : nat) (k : list Qc -> Core A)
| CurveFit (f : model) (xdata ydata p0 : list Qc)
           (k : list Qc * covariance -> Core A).

Arguments Throw {A} e.

Fixpoint bind {A B} (c : Core A) (f : A -> Core B) : Core B :=
  match c with
  | Return a => f a
  | Throw e => Throw e
  | NpRandomSeed s k => NpRandomSeed s (bind k f)
  | NpRandomUniform lo hi n k => NpRandomUniform lo hi n (fun v => bind (k v) f)
  | NpRandomNormal mu sd n k => NpRandomNormal mu sd n (fun v => bind (k v) f)
  | CurveFit g xs ys p0 k => CurveFit g xs ys p0 (fun v => bind (k v) f)
  end.

Notation "x <- c ;; k" := (bind c (fun x => k))
  (at level 61, c at next level, right associativity).
Notation "' pat <- c ;; k" := (bind c (fun x => match x with pat => k end))
  (at level 61, pat pattern, c at next level, right associativity).
Notation "c ;;; k" := (bind c (fun _ => k))
  (at level 61, right associativity).

Definition np_random_seed (seed : Z) : Core unit :=
  NpRandomSeed seed (Return tt).
Definition np_random_uniform (low high : Qc) (size : Z) : Core (list Qc) :=
  NpRandomUniform low high size (fun v => Return v).
Definition np_random_normal (loc scale : Qc) (size : nat) : Core (list Qc) :=
  NpRandomNormal loc scale size (fun v => Return v).
Definition curve_fit (f : model) (xdata ydata p0 : list Qc)
  : Core (list Qc * covariance) :=
  CurveFit f xdata ydata p0 (fun v => Return v).
Definition lift {A} (r : Result A) : Core A :=
  match r with Ok a => Return a | Raise e => Throw e end.

(** The first thing a computation does. *)
Definition raises_at_once {A} (c : Core A) : bool :=
  match c with Throw _ => true | _ => false end.
Definition calls_solver_at_once {A} (c : Core A) : bool :=
  match c with CurveFit _ _ _ _ _ => true | _ => false end.

(** Elementwise [a + b] of two one-dimensional arrays with numpy's
    broadcasting: equal lengths add pointwise, a length-1 operand is
    stretched, anything else is a [ValueError]. *)
Fixpoint add_pointwise (a b : list Qc) : list Qc :=
  match a, b with
  | u :: a', v :: b' => (u + v) :: add_pointwise a' b'
  | _, _ => []
  end.

Definition np_add (a b : list Qc) : Result (list Qc) :=
  if Nat.eqb (length a) (length b) then Ok (add_pointwise a b)
  else match a, b with
       | [u], _ => Ok (map (fun v => u + v) b)
       | _, [v] => Ok (map (fun u => u + v) a)
       | _, _ => Raise ValueError
       end.

(** ** Data generator *)

(** [def generate_noisy_data(func, x_min=0.0, x_max=1.0, noise=0.2,
    nr_points=20)].  [func] is called on the array [x]; the notebook's
    functions are numpy arithmetic, which acts on every element, so
    [func(x)] is [map func x].  [x.shape] is [(len(x),)]. *)
Definition generate_noisy_data (func : Qc -> Qc)
    (x_min x_max noise : Qc) (nr_points : Z) : Core (list Qc * list Qc) :=
  x <- np_random_uniform x_min x_max nr_points ;;
  e <- np_random_normal 0 noise (length x) ;;
  y <- lift (np_add (map func x) e) ;;
  Return (x, y).

(** ** Fit engine *)

(** [p0 = [1.0]*(degree + 1)]; a non-positive count gives the empty
    list. *)
Definition ones (degree : Z) : list Qc := repeat 1 (Z.to_nat (degree + 1)).

(** [def compute_params(fit_func, xs, ys, degree)] *)
Definition compute_params (fit_func : model) (xs ys : list Qc) (degree : Z)
  : Core (list Qc) :=
  let p0 := ones degree in
  '(p_opt, _) <- curve_fit fit_func xs ys p0 ;;
  Return p_opt.

(** ** scipy's front end *)

(** numpy's broadcasting of two one-dimensional lengths. *)
Definition broadcast_length (m n : nat) : Result nat :=
  if Nat.eqb m n then Ok m
  else if Nat.eqb m 1 then Ok n
  else if Nat.eqb n 1 then Ok m
  else Raise ValueError.

(** The number of residuals [f(xdata, *p0) - ydata] the least-squares
    routine sees.  The model function is taken to return one value per
    x-value when it has a coefficient and a single number when it has
    none, as [fit_func] does. *)
Definition residual_count (n_params n_x n_y : nat) : Result nat :=
  if Nat.eqb n_params 0 then Ok n_y else broadcast_length n_x n_y.

(** [scipy.optimize.curve_fit(f, xdata, ydata, p0)] with its default
    method, as far as its argument checks go: an empty [ydata] is a
    [ValueError]; more parameters than data points is a [TypeError]
    (unless there is a single data point, which may be broadcast);
    residuals that cannot be formed are numpy's [ValueError]; more
    parameters than residuals is the [TypeError] "Improper input: func
    input vector length N must not exceed func output vector length M".
    What follows, the numerical minimisation [leastsq], is left open. *)
Definition scipy_curve_fit
    (leastsq : model -> list Qc -> list Qc -> list Qc
               -> Result (list Qc * covariance))
    (f : model) (xdata ydata p0 : list Qc) : Result (list Qc * covariance) :=
  if Nat.eqb (length ydata) 0 then Raise ValueError
  else if negb (Nat.eqb (length ydata) 1)
          && Nat.ltb (length ydata) (length p0) then Raise TypeError
  else
    match residual_count (length p0) (length xdata) (length ydata) with
    | Raise e => Raise e
    | Ok m =>
        if Nat.ltb m (length p0) then Raise TypeError
        else leastsq f xdata ydata p0
    end.

(** ** Running a computation *)

(** [np.random.seed] accepts the integers from [0] to [2**32 - 1]. *)
Definition valid_seed (seed : Z) : bool :=
  ((0 <=? seed) && (seed <? 2 ^ 32))%Z.

Section Collaborators.

(** The random stream behind [np.random]: a state, the state a seed
    selects, and the two primitive draws (a double in [0,1) and a
    standard normal deviate). *)
Variable rng : Type.
Variable seed_state : Z -> rng.
Variable next_double : rng -> Qc * rng.
Variable next_gauss : rng -> Qc * rng.

(** The solver behind [scipy.optimize.curve_fit]. *)
Variable solver :
  model -> list Qc -> list Qc -> list Qc -> Result (list Qc * covariance).

Fixpoint draws (next : rng -> Qc * rng) (n : nat) (st : rng)
  : list Qc * rng :=
  match n with
  | O => ([], st)
  | S n' =>
      let (v, st1) := next st in
      let (vs, st2) := draws next n' st1 in
      (v :: vs, st2)
  end.

(** numpy's [uniform(low, high, size)]: a negative size is a
    [ValueError]; otherwise [size] values [low + (high - low) * u].
    There is no check that [low <= high]. *)
Definition uniform (low high : Qc) (size : Z) (st : rng)
  : Result (list Qc) * rng :=
  if (size <? 0)%Z then (Raise ValueError, st)
  else
    let (us, st') := draws next_double (Z.to_nat size) st in
    (Ok (map (fun u => low + (high - low) * u) us), st').

(** numpy's [normal(loc, scale, size)]: a negative scale is a
    [ValueError]; otherwise [size] values [loc + scale * z]. *)
Definition normal (loc scale : Qc) (size : nat) (st : rng)
  : Result (list Qc) * rng :=
  if Qclt_le_dec scale 0 then (Raise ValueError, st)
  else
    let (zs, st') := draws next_gauss size st in
    (Ok (map (fun z => loc + scale * z) zs), st').

(** Execution: an exception of a library routine ends the
    computation, as no caller in the notebook catches it.  A seed out of
    range is a [ValueError] and leaves the stream as it was. *)
Fixpoint run {A} (c : Core A) (st : rng) : Result A * rng :=
  match c with
  | Return a => (Ok a, st)
  | Throw e => (Raise e, st)
  | NpRandomSeed s k =>
      if valid_seed s then run k (seed_state s) else (Raise ValueError, st)
  | NpRandomUniform lo hi n k =>
      match uniform lo hi n st with
      | (Ok v, st') => run (k v) st'
      | (Raise e, st') => (Raise e, st')
      end
  | NpRandomNormal mu sd n k =>
      match normal mu sd n st with
      | (Ok v, st') => run (k v) st'
      | (Raise e, st') => (Raise e, st')
      end
  | CurveFit f xs ys p0 k =>
      match solver f xs ys p0 with
      | Ok v => run (k v) st
      | Raise e => (Raise e, st)
      end
  end.

End Collaborators.

(** ** A concrete random stream and solver for running examples *)

Module Lcg.

(** A 16-bit linear congruential generator standing in for numpy's
    generator. *)
Definition step (s : Z) : Z := ((25173 * s + 13849) mod 65536)%Z.

Definition seed_state (seed : Z) : Z := (seed mod 65536)%Z.

Definition next_double (s : Z) : Qc * Z :=
  let s' := step s in (Q2Qc (Qmake s' 65536), s').

Definition next_gauss (s : Z) : Qc * Z :=
  let s' := step s in (Q2Qc (Qmake (2 * s' - 65536) 32768), s').

(** A solver that performs only the dimension check of the
    least-squares routine (more parameters than residuals is a
    [TypeError]) and otherwise hands back its initial guess. *)
Definition solver (f : model) (xdata ydata p0 : list Qc)
  : Result (list Qc * covariance) :=
  if Nat.ltb (length ydata) (length p0) then Raise TypeError
  else Ok (p0, []).

Definition exec {A} (c : Core A) (s : Z) : Result A * Z :=
  run seed_state next_double next_gauss solver c s.

End Lcg.

(** ** The mathematical quantities the notebook's text refers to *)

(** [big_sum n F] is the finite sum of [F i] for [i = 0 .. n-1]. *)
Fixpoint big_sum (n : nat) (F : nat -> Qc) : Qc :=
  match n with
  | O => 0
  | S m => big_sum m F + F m
  end.

(** The i-th coefficient of a vector. *)
Definition coeff (p : list Qc) (i : nat) : Qc := nth i p 0.

(** The polynomial of the markdown cell: the sum of [p_i x^i] for
    [i = 0 .. d]. *)
Definition polynomial (d : nat) (p : list Qc) (x : Qc) : Qc :=
  big_sum (S d) (fun i => coeff p i * x ^ i).

(** The same sum over all coefficients that are present. *)
Definition polynomial_of (p : list Qc) (x : Qc) : Qc :=
  big_sum (length p) (fun i => coeff p i * x ^ i).

(** Sum of the squared residuals of the first [m] points. *)
Definition squared_residuals (f : Qc -> Qc) (xs ys : list Qc) (m : nat) : Qc :=
  big_sum m (fun i => (nth i ys 0 - f (nth i xs 0)) ^ 2).

(** Mean squared error over [n] points: [(1/n)] times the sum of squared
    residuals. *)
Definition mean_squared_error (f : Qc -> Qc) (xs ys : list Qc) (n : nat) : Qc :=
  (1 / of_int (Z.of_nat n)) * squared_residuals f xs ys n.

(** ** The notebook's cells *)

(** [range(start, stop)] *)
Definition py_range (start stop : Z) : list Z :=
  map (fun i => (start + Z.of_nat i)%Z) (seq 0 (Z.to_nat (stop - start))).

(** A list comprehension whose body calls the libraries: the items are
    visited in order and the first exception ends it. *)
Fixpoint for_each {A B} (body : A -> Core B) (items : list A)
  : Core (list B) :=
  match items with
  | [] => Return []
  | a :: rest =>
      b <- body a ;;
      bs <- for_each body rest ;;
      Return (b :: bs)
  end.

(** The same for a body that only computes. *)
Fixpoint collect {A B} (body : A -> Result B) (items : list A)
  : Result (list B) :=
  match items with
  | [] => Ok []
  | a :: rest =>
      match body a with
      | Ok b =>
          match collect body rest with
          | Ok bs => Ok (b :: bs)
          | Raise e => Raise e
          end
      | Raise e => Raise e
      end
  end.

(** [p_opts = [compute_params(fit_func, x_train, y_train, degree)
               for degree in range(1, 7)]] *)
Definition p_opts_cell (x_train y_train : list Qc) : Core (list (list Qc)) :=
  for_each (fun degree => compute_params fit_func x_train y_train degree)
           (py_range 1 7).

(** [degrees = list(range(1, len(p_opts) + 1))] *)
Definition degrees_cell (p_opts : list (list Qc)) : list Z :=
  py_range 1 (Z.of_nat (length p_opts) + 1).

(** [errors = [compute_errors(fit_func, x_val, y_val, p_opt)
               for p_opt in p_opts]] *)
Definition errors_cell (x_val y_val : list Qc) (p_opts : list (list Qc))
  : Result (list Qc) :=
  collect (fun p_opt => compute_errors fit_func x_val y_val p_opt) p_opts.

(** The label of [show_fit]: [len(p_opt) - 1]. *)
Definition shown_degree (p_opt : list Qc) : Z := (Z.of_nat (length p_opt) - 1)%Z.

(** ** Sums *)

Lemma big_sum_ext (n : nat) (F G : nat -> Qc) :
  (forall i, (i < n)%nat -> F i = G i) -> big_sum n F = big_sum n G.
Proof.
  induction n as [|n IH]; intros HFG; simpl.
  - reflexivity.
  - rewrite IH by (intros i Hi; apply HFG; lia).
    rewrite (HFG n) by lia. reflexivity.
Qed.

Lemma big_sum_shift (n : nat) (F : nat -> Qc) :
  big_sum (S n) F = F O + big_sum n (fun i => F (S i)).
Proof.
  induction n as [|n IH].
  - simpl. ring.
  - change (big_sum (S (S n)) F) with (big_sum (S n) F + F (S n)).
    rewrite IH. simpl. ring.
Qed.

Lemma fold_left_Qcplus_acc (l : list Qc) (acc : Qc) :
  fold_left Qcplus l acc = acc + py_sum l.
Proof.
  unfold py_sum. revert acc.
  induction l as [|a l IH]; intros acc; simpl.
  - ring.
  - rewrite IH. rewrite (IH (0 + a)). ring.
Qed.

Lemma py_sum_cons (a : Qc) (l : list Qc) : py_sum (a :: l) = a + py_sum l.
Proof.
  unfold py_sum at 1. simpl. rewrite fold_left_Qcplus_acc. ring.
Qed.

(** The builtin [sum] of a list is the finite sum of its items. *)
Lemma py_sum_big_sum (l : list Qc) :
  py_sum l = big_sum (length l) (fun i => nth i l 0).
Proof.
  induction l as [|a l IH].
  - reflexivity.
  - rewrite py_sum_cons. cbn [length]. rewrite big_sum_shift.
    cbn [nth]. rewrite IH. reflexivity.
Qed.

(** ** Model evaluator *)

Lemma x_facts_length (x : Qc) (params : list Qc) :
  length (x_facts x params) = length params.
Proof. unfold x_facts. now rewrite length_map, length_seq. Qed.

Lemma x_facts_nth (x : Qc) (params : list Qc) (i : nat) :
  (i < length params)%nat -> nth i (x_facts x params) 0 = x ^ i.
Proof.
  intros Hi. unfold x_facts.
  rewrite (nth_indep _ 0 ((fun k => x ^ k) O))
    by now rewrite length_map, length_seq.
  rewrite (map_nth (fun k => x ^ k)). now rewrite seq_nth.
Qed.

Lemma fit_func_terms_nth (x : Qc) (params : list Qc) (i : nat) :
  (i < length params)%nat ->
  nth i (map (fun '(param, x_fact) => param * x_fact)
             (combine params (x_facts x params))) 0
  = coeff params i * x ^ i.
Proof.
  intros Hi.
  set (term := fun '(param, x_fact) => param * x_fact : Qc).
  assert (Hlen : length (combine params (x_facts x params)) = length params)
    by (rewrite length_combine, x_facts_length; lia).
  rewrite (nth_indep _ 0 (term (0, 0))) by now rewrite length_map, Hlen.
  rewrite (map_nth term).
  rewrite combine_nth by now rewrite x_facts_length.
  unfold term, coeff. now rewrite x_facts_nth.
Qed.

(** [fit_func] is the polynomial with the given coefficients, whatever
    their number. *)
Lemma fit_func_polynomial_of (x : Qc) (params : list Qc) :
  fit_func x params = polynomial_of params x.
Proof.
  unfold fit_func, polynomial_of. rewrite py_sum_big_sum.
  rewrite length_map, length_combine, x_facts_length, Nat.min_id.
  apply big_sum_ext. intros i Hi. now apply fit_func_terms_nth.
Qed.

(** C1.  For a coefficient vector [p] of length [d+1] and a scalar [x],
    [fit_func] returns the degree-[d] polynomial value, the sum of
    [p_i * x^i] for [i = 0 .. d]. *)
Theorem fit_func_is_polynomial (d : nat) (p : list Qc) (x : Qc) :
  length p = S d -> fit_func x p = polynomial d p x.
Proof.
  intros Hlen. rewrite fit_func_polynomial_of.
  unfold polynomial_of, polynomial. now rewrite Hlen.
Qed.

Lemma fit_func_is_polynomial_witness :
  length [of_int 1; of_int 2; of_int 3] = 3%nat /\
  fit_func (of_int 2) [of_int 1; of_int 2; of_int 3]
  = polynomial 2 [of_int 1; of_int 2; of_int 3] (of_int 2).
Proof.
  split; [reflexivity | apply (@fit_func_is_polynomial 2); reflexivity].
Defined.

(** C7.  A coefficient vector of length 1 makes [fit_func] the constant
    function with value [p[0]]. *)
Theorem fit_func_constant (p : list Qc) (x : Qc) :
  length p = 1%nat -> fit_func x p = coeff p 0.
Proof.
  intros Hlen.
  destruct p as [|p0 [|p1 rest]]; try discriminate Hlen.
  unfold fit_func, x_facts, coeff, py_sum. simpl. ring.
Qed.

Lemma fit_func_constant_witness :
  length [of_int 7] = 1%nat /\
  fit_func (of_int 3) [of_int 7] = coeff [of_int 7] 0.
Proof.
  split; [reflexivity | apply fit_func_constant; reflexivity].
Defined.

(** C4 (as amended).  With no coefficients [fit_func] returns the number
    [0], the value of the empty [sum], for every [x], instead of
    signalling a failure. *)
Theorem fit_func_empty (x : Qc) : fit_func x [] = 0.
Proof. reflexivity. Qed.

(** C4 (counterexample).  [fit_func(3)] evaluates to the number [0]
    instead of signalling a failure. *)
Lemma fit_func_empty_returns_zero :
  Ok (fit_func (of_int 3) []) = Ok 0 /\
  is_ok (Ok (fit_func (of_int 3) [])) = true.
Proof. split; reflexivity. Qed.

(** ** Error evaluator *)

Lemma of_int_eq_0 (z : Z) : of_int z = 0 -> z = 0%Z.
Proof.
  unfold of_int. intros H. apply Q2Qc_eq_iff in H.
  unfold Qeq in H. simpl in H. lia.
Qed.

Lemma of_int_inj (a b : Z) : of_int a = of_int b -> a = b.
Proof.
  unfold of_int. intros H. apply Q2Qc_eq_iff in H.
  unfold Qeq in H. simpl in H. lia.
Qed.

Lemma of_len_nonzero {A} (xs : list A) : xs <> [] -> of_len xs <> 0.
Proof.
  intros Hne H. apply of_int_eq_0 in H.
  destruct xs; [now apply Hne | discriminate H].
Qed.

Lemma py_truediv_ok (a b : Qc) : b <> 0 -> py_truediv a b = Ok (a / b).
Proof.
  intros Hb. unfold py_truediv. now destruct (Qc_eq_dec b 0).
Qed.

Lemma py_truediv_zero (a : Qc) : py_truediv a 0 = Raise ZeroDivisionError.
Proof.
  unfold py_truediv. destruct (Qc_eq_dec 0 0) as [_|H]; [reflexivity|].
  now elim H.
Qed.

Lemma residual_terms_nth (func : model) (p xs ys : list Qc) (i : nat) :
  (i < Nat.min (length xs) (length ys))%nat ->
  nth i (map (fun '(x, y) => (y - func x p) ^ 2) (combine xs ys)) 0
  = (nth i ys 0 - func (nth i xs 0) p) ^ 2.
Proof.
  revert ys i. induction xs as [|x xs IH]; intros ys i Hi.
  - simpl in Hi. lia.
  - destruct ys as [|y ys]; [simpl in Hi; lia|].
    destruct i as [|i]; [reflexivity|].
    simpl. apply IH. simpl in Hi. lia.
Qed.

(** The numerator of [compute_errors]: [zip] stops at the shorter
    sequence, so the residuals of the first [min(len(xs), len(ys))]
    points are summed. *)
Lemma compute_errors_unfold (func : model) (p xs ys : list Qc) :
  compute_errors func xs ys p
  = py_truediv
      (squared_residuals (fun x => func x p) xs ys
         (Nat.min (length xs) (length ys)))
      (of_len xs).
Proof.
  unfold compute_errors, squared_residuals. f_equal.
  rewrite py_sum_big_sum, length_map, length_combine.
  apply big_sum_ext. intros i Hi. now apply residual_terms_nth.
Qed.

(** An empty [xs] makes the division fail. *)
Lemma compute_errors_no_points (func : model) (p ys : list Qc) :
  compute_errors func [] ys p = Raise ZeroDivisionError.
Proof. reflexivity. Qed.

(** C2.  For sequences [xs], [ys] of the same length [n > 0],
    [compute_errors] returns [(1/n)] times the sum of the squared
    residuals [y_i - f(x_i; p)], [f] being the polynomial with
    coefficients [p]. *)
Theorem compute_errors_mean_squared_error (p xs ys : list Qc) (n : nat) :
  length xs = n -> length ys = n -> (0 < n)%nat ->
  compute_errors fit_func xs ys p
  = Ok (mean_squared_error (polynomial_of p) xs ys n).
Proof.
  intros Hx Hy Hn. rewrite compute_errors_unfold.
  assert (Hne : xs <> []) by (intros ->; simpl in Hx; lia).
  rewrite py_truediv_ok by now apply of_len_nonzero.
  rewrite Hx, Hy, Nat.min_id.
  unfold mean_squared_error, of_len. rewrite Hx. f_equal.
  unfold squared_residuals.
  rewrite (@big_sum_ext n
             (fun i => (nth i ys 0 - fit_func (nth i xs 0) p) ^ 2)
             (fun i => (nth i ys 0 - polynomial_of p (nth i xs 0)) ^ 2))
    by (intros i _; now rewrite fit_func_polynomial_of).
  unfold Qcdiv. ring.
Qed.

Lemma compute_errors_mean_squared_error_witness :
  length [of_int 1; of_int 2] = 2%nat /\
  length [of_int 1; of_int 3] = 2%nat /\
  (0 < 2)%nat /\
  compute_errors fit_func [of_int 1; of_int 2] [of_int 1; of_int 3] [of_int 1]
  = Ok (mean_squared_error (polynomial_of [of_int 1])
          [of_int 1; of_int 2] [of_int 1; of_int 3] 2).
Proof.
  split; [reflexivity|]. split; [reflexivity|]. split; [lia|].
  apply compute_errors_mean_squared_error; [reflexivity | reflexivity | lia].
Defined.

Lemma Qcdiv_same_numerator (s a b : Qc) :
  s <> 0 -> a <> 0 -> b <> 0 -> s / a = s / b -> a = b.
Proof.
  intros Hs Ha Hb H.
  assert (Hab : s * b = s * a).
  { transitivity (s / a * (a * b)); [field; exact Ha|].
    rewrite H. field. exact Hb. }
  assert (Hz : s * (b - a) = 0).
  { transitivity (s * b - s * a); [ring | rewrite Hab; ring]. }
  apply Qcmult_integral_l in Hz; [|exact Hs].
  symmetry. transitivity (b - a + a); [ring | rewrite Hz; ring].
Qed.

(** C10 (as amended).  When [xs] is not empty and [ys] has another
    length, [compute_errors] raises nothing: it returns the sum of the
    squared residuals of the first [min(len(xs), len(ys))] pairs divided
    by [len(xs)].  When [ys] is the shorter one (and not empty) and that
    sum is not zero, the result differs from the mean of the residuals
    that were summed. *)
Theorem compute_errors_length_mismatch (func : model) (p xs ys : list Qc) :
  xs <> [] -> length xs <> length ys ->
  compute_errors func xs ys p
  = Ok (squared_residuals (fun x => func x p) xs ys
          (Nat.min (length xs) (length ys)) / of_len xs)
  /\
  ((length ys < length xs)%nat -> ys <> [] ->
   squared_residuals (fun x => func x p) xs ys
     (Nat.min (length xs) (length ys)) <> 0 ->
   squared_residuals (fun x => func x p) xs ys
     (Nat.min (length xs) (length ys)) / of_len xs
   <> squared_residuals (fun x => func x p) xs ys
        (Nat.min (length xs) (length ys))
      / of_int (Z.of_nat (Nat.min (length xs) (length ys)))).
Proof.
  intros Hne Hlen. split.
  - rewrite compute_errors_unfold. apply py_truediv_ok.
    now apply of_len_nonzero.
  - intros Hlt Hys Hs Heq.
    rewrite Nat.min_r in * by lia.
    apply Qcdiv_same_numerator in Heq.
    + apply of_int_inj in Heq. lia.
    + exact Hs.
    + now apply of_len_nonzero.
    + now apply (of_len_nonzero (xs:=ys)).
Qed.

Lemma compute_errors_length_mismatch_witness :
  [of_int 0; of_int 1] <> [] /\
  length [of_int 0; of_int 1] <> length [of_int 3] /\
  compute_errors fit_func [of_int 0; of_int 1] [of_int 3] [of_int 1]
  = Ok (squared_residuals (fun x => fit_func x [of_int 1])
          [of_int 0; of_int 1] [of_int 3] 1 / of_len [of_int 0; of_int 1]).
Proof.
  assert (Hne : [of_int 0; of_int 1] <> []) by discriminate.
  assert (Hlen : length [of_int 0; of_int 1] <> length [of_int 3])
    by (simpl; lia).
  split; [exact Hne|]. split; [exact Hlen|].
  exact (proj1 (@compute_errors_length_mismatch fit_func [of_int 1]
                  [of_int 0; of_int 1] [of_int 3] Hne Hlen)).
Defined.

(** C10 (counterexample).  With [xs = []] and [ys = [1]] the lengths
    differ and the call raises [ZeroDivisionError]; with [xs = [1, 2]],
    [ys = [1]] and the constant model [1] the single residual summed is
    zero and the result, [0], is its mean. *)
Lemma compute_errors_length_mismatch_fails :
  (length (@nil Qc) <> length [of_int 1] /\
   compute_errors fit_func [] [of_int 1] [of_int 1] = Raise ZeroDivisionError)
  /\
  ((length [of_int 1] < length [of_int 1; of_int 2])%nat /\
   compute_errors fit_func [of_int 1; of_int 2] [of_int 1] [of_int 1]
   = Ok (squared_residuals (fun x => fit_func x [of_int 1])
           [of_int 1; of_int 2] [of_int 1] 1 / of_int 1)).
Proof.
  split; split.
  - simpl. lia.
  - reflexivity.
  - simpl. lia.
  - rewrite compute_errors_unfold. rewrite py_truediv_ok.
    + f_equal. apply Qc_is_canon. vm_compute. reflexivity.
    + apply of_len_nonzero. discriminate.
Qed.

(** ** Data generator and fit engine *)

Lemma add_pointwise_length (a b : list Qc) :
  length a = length b -> length (add_pointwise a b) = length a.
Proof.
  revert b. induction a as [|u a IH]; intros [|v b] H; simpl in *;
    try reflexivity; try discriminate.
  f_equal. apply IH. now injection H.
Qed.

Lemma np_add_same_length (a b : list Qc) :
  length a = length b -> np_add a b = Ok (add_pointwise a b).
Proof.
  intros H. unfold np_add. now rewrite H, Nat.eqb_refl.
Qed.

Lemma ones_length (degree : Z) : length (ones degree) = Z.to_nat (degree + 1).
Proof. unfold ones. apply repeat_length. Qed.

Section CoreFacts.

Variable rng : Type.
Variable seed_state : Z -> rng.
Variable next_double : rng -> Qc * rng.
Variable next_gauss : rng -> Qc * rng.
Variable solver :
  model -> list Qc -> list Qc -> list Qc -> Result (list Qc * covariance).

Local Abbreviation exec := (run seed_state next_double next_gauss solver).
Local Abbreviation np_uniform := (uniform next_double).
Local Abbreviation np_normal := (normal next_gauss).

Lemma draws_length (next : rng -> Qc * rng) (n : nat) (st : rng) :
  length (fst (draws next n st)) = n.
Proof.
  revert st. induction n as [|n IH]; intros st; simpl.
  - reflexivity.
  - destruct (next st) as [v st1]. specialize (IH st1).
    destruct (draws next n st1) as [vs st2]. simpl in *. now rewrite IH.
Qed.

Lemma uniform_ok (low high : Qc) (size : Z) (st : rng) :
  (0 <= size)%Z ->
  exists v st', np_uniform low high size st = (Ok v, st')
                /\ length v = Z.to_nat size.
Proof.
  intros Hsize. unfold uniform.
  destruct (Z.ltb_spec size 0) as [Hneg|_]; [lia|].
  pose proof (draws_length next_double (Z.to_nat size) st) as Hlen.
  destruct (draws next_double (Z.to_nat size) st) as [us st'].
  exists (map (fun u => low + (high - low) * u) us), st'.
  split; [reflexivity|]. now rewrite length_map.
Qed.

Lemma uniform_inv (low high : Qc) (size : Z) (st st' : rng) (v : list Qc) :
  np_uniform low high size st = (Ok v, st') ->
  (0 <= size)%Z /\ length v = Z.to_nat size.
Proof.
  unfold uniform. destruct (Z.ltb_spec size 0) as [Hneg|Hpos].
  - discriminate.
  - pose proof (draws_length next_double (Z.to_nat size) st) as Hlen.
    destruct (draws next_double (Z.to_nat size) st) as [us st1].
    intros H. injection H as <- _. split; [exact Hpos|].
    now rewrite length_map.
Qed.

Lemma uniform_negative_size (low high : Qc) (size : Z) (st : rng) :
  (size < 0)%Z -> np_uniform low high size st = (Raise ValueError, st).
Proof.
  intros H. unfold uniform.
  destruct (Z.ltb_spec size 0) as [_|Hpos]; [reflexivity | lia].
Qed.

Lemma normal_ok (loc scale : Qc) (size : nat) (st : rng) :
  0 <= scale ->
  exists v st', np_normal loc scale size st = (Ok v, st')
                /\ length v = size.
Proof.
  intros Hscale. unfold normal.
  destruct (Qclt_le_dec scale 0) as [Hneg|_].
  - exfalso. exact (Qclt_not_le _ _ Hneg Hscale).
  - pose proof (draws_length next_gauss size st) as Hlen.
    destruct (draws next_gauss size st) as [zs st'].
    exists (map (fun z => loc + scale * z) zs), st'.
    split; [reflexivity|]. now rewrite length_map.
Qed.

Lemma normal_inv (loc scale : Qc) (size : nat) (st st' : rng) (v : list Qc) :
  np_normal loc scale size st = (Ok v, st') ->
  0 <= scale /\ length v = size.
Proof.
  unfold normal. destruct (Qclt_le_dec scale 0) as [Hneg|Hpos].
  - discriminate.
  - pose proof (draws_length next_gauss size st) as Hlen.
    destruct (draws next_gauss size st) as [zs st1].
    intros H. injection H as <- _. split; [exact Hpos|].
    now rewrite length_map.
Qed.

(** What a run of [generate_noisy_data] amounts to. *)
Lemma generate_noisy_data_run (func : Qc -> Qc) (x_min x_max noise : Qc)
    (nr_points : Z) (st : rng) :
  exec (generate_noisy_data func x_min x_max noise nr_points) st
  = match np_uniform x_min x_max nr_points st with
    | (Ok x, st1) =>
        match np_normal 0 noise (length x) st1 with
        | (Ok e, st2) =>
            match np_add (map func x) e with
            | Ok y => (Ok (x, y), st2)
            | Raise err => (Raise err, st2)
            end
        | (Raise err, st2) => (Raise err, st2)
        end
    | (Raise err, st1) => (Raise err, st1)
    end.
Proof.
  unfold generate_noisy_data, np_random_uniform, np_random_normal. simpl.
  destruct (np_uniform x_min x_max nr_points st) as [[x|err] st1];
    [|reflexivity].
  destruct (np_normal 0 noise (length x) st1) as [[e|err] st2];
    [|reflexivity].
  destruct (np_add (map func x) e) as [y|err]; reflexivity.
Qed.

(** A non-negative count and a non-negative noise level are all the
    generator needs; the interval may be given in either order. *)
Lemma generate_noisy_data_succeeds (func : Qc -> Qc)
    (x_min x_max noise : Qc) (nr_points : Z) (st : rng) :
  (0 <= nr_points)%Z -> 0 <= noise ->
  exists x y st',
    exec (generate_noisy_data func x_min x_max noise nr_points) st
    = (Ok (x, y), st').
Proof.
  intros Hn Hnoise. rewrite generate_noisy_data_run.
  destruct (uniform_ok x_min x_max st Hn) as (x & st1 & -> & Hx).
  destruct (normal_ok 0 (length x) st1 Hnoise) as (e & st2 & -> & He).
  rewrite np_add_same_length by now rewrite length_map, He.
  now eexists _, _, _.
Qed.

(** A negative count is refused by numpy. *)
Lemma generate_noisy_data_negative_count (func : Qc -> Qc)
    (x_min x_max noise : Qc) (nr_points : Z) (st : rng) :
  (nr_points < 0)%Z ->
  exec (generate_noisy_data func x_min x_max noise nr_points) st
  = (Raise ValueError, st).
Proof.
  intros H. rewrite generate_noisy_data_run.
  now rewrite uniform_negative_size.
Qed.

(** C9.  Whenever [generate_noisy_data] produces a Sample Set, its
    x-values and its y-values both have length [nr_points]. *)
Theorem generate_noisy_data_lengths (func : Qc -> Qc)
    (x_min x_max noise : Qc) (nr_points : Z) (st st' : rng)
    (x y : list Qc) :
  exec (generate_noisy_data func x_min x_max noise nr_points) st
  = (Ok (x, y), st') ->
  length x = length y /\ Z.of_nat (length x) = nr_points.
Proof.
  rewrite generate_noisy_data_run.
  destruct (np_uniform x_min x_max nr_points st) as [[x0|err] st1] eqn:Hu;
    [|discriminate].
  apply uniform_inv in Hu. destruct Hu as [Hn Hx0].
  destruct (np_normal 0 noise (length x0) st1) as [[e|err] st2] eqn:He;
    [|discriminate].
  apply normal_inv in He. destruct He as [_ He].
  rewrite np_add_same_length by now rewrite length_map, He.
  intros H. injection H as <- <- _.
  rewrite add_pointwise_length by now rewrite length_map, He.
  rewrite length_map. split; [reflexivity | lia].
Qed.

(** Running a sequence: the second part starts from the stream the
    first part left, and is skipped when the first part raises. *)
Lemma run_bind {A B} (c : Core A) (k : A -> Core B) (st : rng) :
  exec (bind c k) st
  = match exec c st with
    | (Ok a, st') => exec (k a) st'
    | (Raise e, st') => (Raise e, st')
    end.
Proof.
  revert st. induction c as [a|e|s c IH|lo hi n c IH|mu sd n c IH|g xs ys p0 c IH];
    intros st; simpl.
  - reflexivity.
  - reflexivity.
  - destruct (valid_seed s); [apply IH | reflexivity].
  - destruct (np_uniform lo hi n st) as [[v|e] st']; [apply IH | reflexivity].
  - destruct (np_normal mu sd n st) as [[v|e] st']; [apply IH | reflexivity].
  - destruct (solver g xs ys p0) as [v|e]; [apply IH | reflexivity].
Qed.

(** Seeding with an accepted seed forgets the stream's past. *)
Lemma run_seed_then {A} (seed : Z) (c : Core A) (st : rng) :
  valid_seed seed = true ->
  exec (np_random_seed seed ;;; c) st = exec c (seed_state seed).
Proof. intros H. simpl. now rewrite H. Qed.

Lemma valid_seed_range (seed : Z) :
  (0 <= seed < 2 ^ 32)%Z -> valid_seed seed = true.
Proof.
  intros H. unfold valid_seed.
  apply andb_true_intro. split; [apply Z.leb_le | apply Z.ltb_lt]; lia.
Qed.

(** A successful call in terms of the primitive draws: [nr_points]
    doubles, then [nr_points] normal deviates. *)
Lemma generate_noisy_data_ok_run (func : Qc -> Qc) (x_min x_max noise : Qc)
    (nr_points : Z) (st : rng) :
  (0 <= nr_points)%Z -> 0 <= noise ->
  exec (generate_noisy_data func x_min x_max noise nr_points) st
  = (Ok (map (fun u => x_min + (x_max - x_min) * u)
             (fst (draws next_double (Z.to_nat nr_points) st)),
         add_pointwise
           (map func
              (map (fun u => x_min + (x_max - x_min) * u)
                 (fst (draws next_double (Z.to_nat nr_points) st))))
           (map (fun z => 0 + noise * z)
              (fst (draws next_gauss (Z.to_nat nr_points)
                      (snd (draws next_double (Z.to_nat nr_points) st)))))),
     snd (draws next_gauss (Z.to_nat nr_points)
            (snd (draws next_double (Z.to_nat nr_points) st)))).
Proof.
  intros Hn Hnoise. rewrite generate_noisy_data_run. unfold uniform, normal.
  destruct (Z.ltb_spec nr_points 0) as [Hneg|_]; [lia|].
  pose proof (draws_length next_double (Z.to_nat nr_points) st) as Hus.
  destruct (draws next_double (Z.to_nat nr_points) st) as [us st1].
  cbn [fst snd] in *.
  destruct (Qclt_le_dec noise 0) as [Hneg|_];
    [exfalso; exact (Qclt_not_le _ _ Hneg Hnoise)|].
  rewrite length_map, Hus.
  pose proof (draws_length next_gauss (Z.to_nat nr_points) st1) as Hzs.
  destruct (draws next_gauss (Z.to_nat nr_points) st1) as [zs st2].
  cbn [fst snd] in *.
  rewrite np_add_same_length by now rewrite !length_map, Hus, Hzs.
  reflexivity.
Qed.

(** C8.  With the seed fixed the Data Generator is reproducible.  After
    [np.random.seed(seed)], a call with given arguments returns the
    Sample Set made of the first [nr_points] uniform draws of the seeded
    stream, mapped into the interval, and of [func] of these plus
    [noise] times the next [nr_points] normal draws, whatever the stream
    did before.  Hence every run that seeds and calls returns this same
    Sample Set, and so do two calls in one run when each follows the
    seeding. *)
Theorem generate_noisy_data_reproducible (seed : Z) (func : Qc -> Qc)
    (x_min x_max noise : Qc) (nr_points : Z) :
  (0 <= seed < 2 ^ 32)%Z -> (0 <= nr_points)%Z -> 0 <= noise ->
  exists x y st',
    x = map (fun u => x_min + (x_max - x_min) * u)
            (fst (draws next_double (Z.to_nat nr_points) (seed_state seed)))
    /\ y = add_pointwise
             (map func x)
             (map (fun z => 0 + noise * z)
                (fst (draws next_gauss (Z.to_nat nr_points)
                        (snd (draws next_double (Z.to_nat nr_points)
                                (seed_state seed))))))
    /\ (forall st,
          exec (np_random_seed seed ;;;
                generate_noisy_data func x_min x_max noise nr_points) st
          = (Ok (x, y), st'))
    /\ (forall st,
          exec (np_random_seed seed ;;;
                a <- generate_noisy_data func x_min x_max noise nr_points ;;
                np_random_seed seed ;;;
                b <- generate_noisy_data func x_min x_max noise nr_points ;;
                Return (a, b)) st
          = (Ok ((x, y), (x, y)), st')).
Proof.
  intros Hseed Hn Hnoise. apply valid_seed_range in Hseed.
  eexists _, _, _. split; [reflexivity|]. split; [reflexivity|].
  split; intros st.
  - rewrite run_seed_then by exact Hseed.
    now apply generate_noisy_data_ok_run.
  - rewrite run_seed_then by exact Hseed.
    rewrite run_bind, generate_noisy_data_ok_run by assumption.
    rewrite run_seed_then by exact Hseed.
    rewrite run_bind, generate_noisy_data_ok_run by assumption.
    reflexivity.
Qed.

(** Without seeding again, a second call continues from the stream the
    first one left behind. *)
Lemma generate_noisy_data_twice (func : Qc -> Qc)
    (x_min x_max noise : Qc) (nr_points : Z) (st st1 : rng)
    (s1 : list Qc * list Qc) :
  exec (generate_noisy_data func x_min x_max noise nr_points) st
  = (Ok s1, st1) ->
  exec (a <- generate_noisy_data func x_min x_max noise nr_points ;;
        b <- generate_noisy_data func x_min x_max noise nr_points ;;
        Return (a, b)) st
  = match exec (generate_noisy_data func x_min x_max noise nr_points) st1
    with
    | (Ok s2, st2) => (Ok (s1, s2), st2)
    | (Raise e, st2) => (Raise e, st2)
    end.
Proof.
  intros H. rewrite run_bind, H, run_bind.
  destruct (exec (generate_noisy_data func x_min x_max noise nr_points) st1)
    as [[s2|e] st2]; reflexivity.
Qed.

End CoreFacts.

Section FitEngineRun.

Variable rng : Type.
Variable seed_state : Z -> rng.
Variable next_double : rng -> Qc * rng.
Variable next_gauss : rng -> Qc * rng.
Variable solver :
  model -> list Qc -> list Qc -> list Qc -> Result (list Qc * covariance).

Local Abbreviation exec := (run seed_state next_double next_gauss solver).

(** [compute_params] is one call of the solver with the all-ones
    initial guess; its outcome is the solver's. *)
Lemma compute_params_run (f : model) (xs ys : list Qc) (degree : Z)
    (st : rng) :
  exec (compute_params f xs ys degree) st
  = (match solver f xs ys (ones degree) with
     | Ok (p_opt, _) => Ok p_opt
     | Raise e => Raise e
     end, st).
Proof.
  unfold compute_params, curve_fit. simpl.
  destruct (solver f xs ys (ones degree)) as [[p_opt pcov]|e]; reflexivity.
Qed.

End FitEngineRun.

(** With [n] data points on both sides and more than [n] parameters,
    scipy's front end refuses the problem before any minimisation. *)
Lemma scipy_curve_fit_underdetermined
    (leastsq : model -> list Qc -> list Qc -> list Qc
               -> Result (list Qc * covariance))
    (f : model) (xdata ydata p0 : list Qc) :
  length xdata = length ydata -> (length ydata < length p0)%nat ->
  scipy_curve_fit leastsq f xdata ydata p0
  = Raise (if Nat.eqb (length ydata) 0 then ValueError else TypeError).
Proof.
  intros Hlen Hlt. unfold scipy_curve_fit, residual_count, broadcast_length.
  destruct (Nat.eqb_spec (length ydata) 0) as [Hy|Hy]; [reflexivity|].
  destruct (Nat.ltb_spec (length ydata) (length p0)) as [_|Hge]; [|lia].
  destruct (Nat.eqb_spec (length ydata) 1) as [Hone|Hone]; [|reflexivity].
  cbn [negb andb].
  destruct (Nat.eqb_spec (length p0) 0) as [Hp|Hp]; [lia|].
  rewrite Hlen, Nat.eqb_refl.
  destruct (Nat.ltb_spec (length ydata) (length p0)); [reflexivity | lia].
Qed.

Section FitEngineFacts.

Variable rng : Type.
Variable seed_state : Z -> rng.
Variable next_double : rng -> Qc * rng.
Variable next_gauss : rng -> Qc * rng.
Variable solver :
  model -> list Qc -> list Qc -> list Qc -> Result (list Qc * covariance).
Variable leastsq :
  model -> list Qc -> list Qc -> list Qc -> Result (list Qc * covariance).

Local Abbreviation exec := (run seed_state next_double next_gauss solver).
Local Abbreviation exec_scipy :=
  (run seed_state next_double next_gauss (scipy_curve_fit leastsq)).

(** C3.  [compute_params] has no handler: whatever exception the
    solver raises leaves it unchanged.  With scipy's [curve_fit] as the
    solver, a Sample Set of [n] points and [degree + 1 > n] makes it
    raise, for every numerical routine behind [curve_fit]: the initial
    guess [[1.0]*(degree + 1)] has more entries than there are
    residuals, which [curve_fit] refuses with a [TypeError] (with a
    [ValueError] when there is no point at all).  No coefficient vector
    is returned. *)
Theorem compute_params_fit_failure (f : model) (xs ys : list Qc)
    (degree : Z) (st : rng) :
  (forall e, solver f xs ys (ones degree) = Raise e ->
             exec (compute_params f xs ys degree) st = (Raise e, st))
  /\
  (length xs = length ys -> (Z.of_nat (length xs) < degree + 1)%Z ->
   exec_scipy (compute_params f xs ys degree) st
   = (Raise (if Nat.eqb (length ys) 0 then ValueError else TypeError), st)).
Proof.
  split.
  - intros e He. now rewrite compute_params_run, He.
  - intros Hlen Hdeg. rewrite compute_params_run.
    rewrite scipy_curve_fit_underdetermined; [reflexivity | exact Hlen |].
    rewrite ones_length. lia.
Qed.

(** C5 (as amended).  Neither entry point rejects an invalid input
    itself.  [compute_params] hands every [xs], [ys] and [degree] to the
    solver, with the initial guess [[1.0]*(degree + 1)], and ends as the
    solver does.  [generate_noisy_data] returns a Sample Set for every
    interval, [x_min > x_max] included, and every count
    [nr_points >= 0], [0] included, when the noise level is not
    negative. *)
Theorem core_validates_nothing (f : model) (xs ys : list Qc) (degree : Z)
    (func : Qc -> Qc) (x_min x_max noise : Qc) (nr_points : Z) (st : rng) :
  exec (compute_params f xs ys degree) st
  = (match solver f xs ys (ones degree) with
     | Ok (p_opt, _) => Ok p_opt
     | Raise e => Raise e
     end, st)
  /\
  ((0 <= nr_points)%Z -> 0 <= noise ->
   exists x y st',
     exec (generate_noisy_data func x_min x_max noise nr_points) st
     = (Ok (x, y), st')).
Proof.
  split.
  - apply compute_params_run.
  - apply generate_noisy_data_succeeds.
Qed.

End FitEngineFacts.

(** ** The model on concrete inputs *)

Lemma compute_params_fit_failure_witness :
  length [of_int 0; of_int 1] = length [of_int 1; of_int 2]
  /\ (Z.of_nat (length [of_int 0; of_int 1]) < 2 + 1)%Z
  /\ run Lcg.seed_state Lcg.next_double Lcg.next_gauss
       (scipy_curve_fit Lcg.solver)
       (compute_params fit_func [of_int 0; of_int 1] [of_int 1; of_int 2] 2)
       0%Z
     = (Raise TypeError, 0%Z).
Proof.
  assert (Hlen : length [of_int 0; of_int 1] = length [of_int 1; of_int 2])
    by reflexivity.
  assert (Hdeg : (Z.of_nat (length [of_int 0; of_int 1]) < 2 + 1)%Z)
    by (simpl; lia).
  split; [exact Hlen|]. split; [exact Hdeg|].
  exact (proj2 (@compute_params_fit_failure Z Lcg.seed_state Lcg.next_double
                  Lcg.next_gauss Lcg.solver Lcg.solver
                  fit_func [of_int 0; of_int 1] [of_int 1; of_int 2] 2%Z 0%Z)
           Hlen Hdeg).
Defined.

Lemma core_validates_nothing_witness :
  (0 <= 3)%Z /\ 0 <= Q2Qc (1 # 5) /\
  exists x y st',
    Lcg.exec (generate_noisy_data (fun v => v * v) (of_int 1) (of_int 0)
                (Q2Qc (1 # 5)) 3) 0%Z
    = (Ok (x, y), st').
Proof.
  assert (Hn : (0 <= 3)%Z) by lia.
  assert (Hnoise : 0 <= Q2Qc (1 # 5)) by (vm_compute; discriminate).
  split; [exact Hn|]. split; [exact Hnoise|].
  exact (proj2 (@core_validates_nothing Z Lcg.seed_state
                  Lcg.next_double Lcg.next_gauss Lcg.solver
                  fit_func [] [] 0%Z (fun v => v * v)
                  (of_int 1) (of_int 0) (Q2Qc (1 # 5)) 3%Z 0%Z)
           Hn Hnoise).
Defined.

Lemma generate_noisy_data_reproducible_witness :
  (0 <= 1234 < 2 ^ 32)%Z /\ (0 <= 2)%Z /\ 0 <= Q2Qc (1 # 5) /\
  exists x y st',
    x = map (fun u => 0 + (1 - 0) * u)
            (fst (draws Lcg.next_double (Z.to_nat 2) (Lcg.seed_state 1234)))
    /\ y = add_pointwise
             (map (fun v => v * v) x)
             (map (fun z => 0 + Q2Qc (1 # 5) * z)
                (fst (draws Lcg.next_gauss (Z.to_nat 2)
                        (snd (draws Lcg.next_double (Z.to_nat 2)
                                (Lcg.seed_state 1234))))))
    /\ (forall st,
          Lcg.exec (np_random_seed 1234 ;;;
                    generate_noisy_data (fun v => v * v) 0 1
                      (Q2Qc (1 # 5)) 2) st
          = (Ok (x, y), st'))
    /\ (forall st,
          Lcg.exec (np_random_seed 1234 ;;;
                    a <- generate_noisy_data (fun v => v * v) 0 1
                           (Q2Qc (1 # 5)) 2 ;;
                    np_random_seed 1234 ;;;
                    b <- generate_noisy_data (fun v => v * v) 0 1
                           (Q2Qc (1 # 5)) 2 ;;
                    Return (a, b)) st
          = (Ok ((x, y), (x, y)), st')).
Proof.
  assert (Hseed : (0 <= 1234 < 2 ^ 32)%Z) by lia.
  assert (Hn : (0 <= 2)%Z) by lia.
  assert (Hnoise : 0 <= Q2Qc (1 # 5)) by (vm_compute; discriminate).
  split; [exact Hseed|]. split; [exact Hn|]. split; [exact Hnoise|].
  exact (@generate_noisy_data_reproducible Z Lcg.seed_state Lcg.next_double
           Lcg.next_gauss Lcg.solver 1234%Z (fun v => v * v) 0 1
           (Q2Qc (1 # 5)) 2%Z Hseed Hn Hnoise).
Defined.

Lemma generate_noisy_data_lengths_witness :
  exists x y st',
    Lcg.exec (generate_noisy_data (fun v => v * v) 0 1 (Q2Qc (1 # 5)) 3)
      (Lcg.seed_state 1234)
    = (Ok (x, y), st')
    /\ length x = length y /\ Z.of_nat (length x) = 3%Z.
Proof.
  eexists _, _, _.
  refine ((fun H => conj H
             (@generate_noisy_data_lengths Z Lcg.seed_state Lcg.next_double
                Lcg.next_gauss Lcg.solver (fun v => v * v) 0 1 (Q2Qc (1 # 5))
                3%Z (Lcg.seed_state 1234) _ _ _ H)) _).
  vm_compute. reflexivity.
Defined.

(** C5 (counterexample).  With one x-value and two y-values
    [compute_params] raises nothing of its own and goes straight to the
    solver, and a solver that accepts the problem makes it return a
    coefficient vector; [generate_noisy_data] with
    [x_min = 1 > x_max = 0], and with [nr_points = 0], returns a Sample
    Set. *)
Lemma invalid_input_reaches_solver :
  (length [of_int 0] <> length [of_int 1; of_int 2]
   /\ raises_at_once
        (compute_params fit_func [of_int 0] [of_int 1; of_int 2] 0) = false
   /\ calls_solver_at_once
        (compute_params fit_func [of_int 0] [of_int 1; of_int 2] 0) = true
   /\ is_ok (fst (run Lcg.seed_state Lcg.next_double Lcg.next_gauss
                    (scipy_curve_fit Lcg.solver)
                    (compute_params fit_func [of_int 0] [of_int 1; of_int 2] 0)
                    0%Z))
      = true)
  /\
  (is_ok (fst (Lcg.exec (generate_noisy_data (fun v => v * v)
                           (of_int 1) (of_int 0) (Q2Qc (1 # 5)) 3) 0%Z))
   = true
   /\ is_ok (fst (Lcg.exec (generate_noisy_data (fun v => v * v)
                              0 1 (Q2Qc (1 # 5)) 0) 0%Z))
      = true).
Proof.
  split; [split; [simpl; lia | repeat split; reflexivity]|].
  split; vm_compute; reflexivity.
Qed.

(** In one session, seeded once, two successive calls with the same
    arguments give different samples: this is how the notebook obtains
    its training and its validation data. *)
Lemma successive_samples_differ :
  match Lcg.exec (np_random_seed 1234 ;;;
                  a <- generate_noisy_data (fun v => v * v) 0 1
                         (Q2Qc (1 # 5)) 2 ;;
                  b <- generate_noisy_data (fun v => v * v) 0 1
                         (Q2Qc (1 # 5)) 2 ;;
                  Return (a, b)) 0%Z with
  | (Ok ((x_train, _), (x_val, _)), _) =>
      map this x_train <> map this x_val
  | _ => False
  end.
Proof. vm_compute. discriminate. Qed.

(** ** Order facts on the rationals *)

Lemma Qc_sqr_nonneg (a : Qc) : 0 <= a ^ 2.
Proof.
  replace (a ^ 2) with (a * a) by (simpl; ring).
  unfold Qcle, Qcmult, Q2Qc. cbn [this]. rewrite !Qred_correct.
  unfold Qle, Qmult. simpl. nia.
Qed.

Lemma Qc_sqr_zero (a : Qc) : a ^ 2 = 0 -> a = 0.
Proof.
  replace (a ^ 2) with (a * a) by (simpl; ring).
  intros H. now destruct (Qcmult_integral _ _ H).
Qed.

Lemma Qcplus_nonneg (a b : Qc) : 0 <= a -> 0 <= b -> 0 <= a + b.
Proof.
  intros Ha Hb. replace 0 with (0 + 0) by ring.
  now apply Qcplus_le_compat.
Qed.

Lemma Qcplus_nonneg_zero (a b : Qc) :
  0 <= a -> 0 <= b -> a + b = 0 -> a = 0 /\ b = 0.
Proof.
  intros Ha Hb Hab.
  assert (Ha0 : a <= 0).
  { rewrite <- Hab. replace a with (a + 0) at 1 by ring.
    apply Qcplus_le_compat; [apply Qcle_refl | exact Hb]. }
  assert (Ea : a = 0) by now apply Qcle_antisym.
  split; [exact Ea|]. rewrite Ea in Hab. rewrite <- Hab. ring.
Qed.

Lemma of_len_pos {A} (xs : list A) : xs <> [] -> 0 < of_len xs.
Proof.
  intros Hne. destruct xs as [|a xs]; [now elim Hne|].
  unfold Qclt, of_len, of_int, Q2Qc. cbn [this]. rewrite !Qred_correct.
  unfold Qlt. simpl. lia.
Qed.

Lemma Qcdiv_nonneg (s n : Qc) : 0 <= s -> 0 < n -> 0 <= s / n.
Proof.
  intros Hs Hn. unfold Qcdiv.
  assert (Hinv : 0 <= / n).
  { unfold Qcle, Qcinv, Q2Qc. cbn [this]. rewrite !Qred_correct.
    apply Qinv_le_0_compat. apply Qlt_le_weak.
    unfold Qclt, Q2Qc in Hn. cbn [this] in Hn.
    now rewrite Qred_correct in Hn. }
  replace 0 with (0 * / n) by ring.
  now apply Qcmult_le_compat_r.
Qed.

Lemma Qcdiv_zero_iff (s n : Qc) : n <> 0 -> (s / n = 0 <-> s = 0).
Proof.
  intros Hn. split.
  - intros H. transitivity (s / n * n); [field; exact Hn | rewrite H; ring].
  - intros ->. unfold Qcdiv. ring.
Qed.

Lemma big_sum_nonneg (n : nat) (F : nat -> Qc) :
  (forall i, (i < n)%nat -> 0 <= F i) -> 0 <= big_sum n F.
Proof.
  induction n as [|n IH]; intros HF; simpl.
  - apply Qcle_refl.
  - apply Qcplus_nonneg; [apply IH; intros i Hi; apply HF; lia|].
    apply HF. lia.
Qed.

Lemma big_sum_zero_iff (n : nat) (F : nat -> Qc) :
  (forall i, (i < n)%nat -> 0 <= F i) ->
  (big_sum n F = 0 <-> forall i, (i < n)%nat -> F i = 0).
Proof.
  induction n as [|n IH]; intros HF; simpl.
  - split; [intros _ i Hi; lia | reflexivity].
  - assert (HF' : forall i, (i < n)%nat -> 0 <= F i)
      by (intros i Hi; apply HF; lia).
    split.
    + intros H.
      destruct (@Qcplus_nonneg_zero (big_sum n F) (F n)) as [Hs Hn];
        [now apply big_sum_nonneg | apply HF; lia | exact H |].
      intros i Hi. destruct (Nat.eq_dec i n) as [->|Hne]; [exact Hn|].
      apply (proj1 (IH HF') Hs). lia.
    + intros H. rewrite (proj2 (IH HF')) by (intros i Hi; apply H; lia).
      rewrite (H n) by lia. ring.
Qed.

Lemma big_sum_scale (n : nat) (c : Qc) (F : nat -> Qc) :
  big_sum n (fun i => c * F i) = c * big_sum n F.
Proof.
  induction n as [|n IH]; simpl; [ring | rewrite IH; ring].
Qed.

(** ** Model evaluator: algebra on exact numbers

    The facts of this part are about [fit_func] called with Python
    integers or [Fraction]s, whose arithmetic is exact; in binary
    floating point the two sides of these equations can differ in the
    last bits. *)

(** Horner's step. *)
Lemma fit_func_cons (x p0 : Qc) (p : list Qc) :
  fit_func x (p0 :: p) = p0 + x * fit_func x p.
Proof.
  rewrite !fit_func_polynomial_of. unfold polynomial_of.
  cbn [length]. rewrite big_sum_shift. unfold coeff. cbn [nth].
  rewrite <- big_sum_scale. f_equal.
  - simpl. ring.
  - apply big_sum_ext. intros i _. simpl. ring.
Qed.

Lemma fit_func_zeros (x : Qc) (k : nat) : fit_func x (repeat 0 k) = 0.
Proof.
  induction k as [|k IH]; [reflexivity|].
  cbn [repeat]. rewrite fit_func_cons, IH. ring.
Qed.

Lemma squared_residuals_nonneg (f : Qc -> Qc) (xs ys : list Qc) (m : nat) :
  0 <= squared_residuals f xs ys m.
Proof.
  unfold squared_residuals. apply big_sum_nonneg.
  intros i _. apply Qc_sqr_nonneg.
Qed.

Lemma squared_residuals_zero_iff (f : Qc -> Qc) (xs ys : list Qc) (m : nat) :
  squared_residuals f xs ys m = 0
  <-> forall i, (i < m)%nat -> nth i ys 0 = f (nth i xs 0).
Proof.
  unfold squared_residuals.
  rewrite big_sum_zero_iff by (intros i _; apply Qc_sqr_nonneg).
  split; intros H i Hi.
  - specialize (H i Hi). apply Qc_sqr_zero in H.
    transitivity (nth i ys 0 - f (nth i xs 0) + f (nth i xs 0)); [ring|].
    rewrite H. ring.
  - rewrite (H i Hi). simpl. ring.
Qed.

(** X3.  On exact numbers (integers or [Fraction]s for [x] and the
    coefficients) [fit_func] computes what Horner's scheme computes. *)
Theorem fit_func_horner (x : Qc) (p : list Qc) :
  fit_func x p = fold_right (fun c acc => c + x * acc) 0 p.
Proof.
  induction p as [|p0 p IH]; [reflexivity|].
  rewrite fit_func_cons, IH. reflexivity.
Qed.

(** X4.  On exact numbers, concatenating coefficient vectors shifts the
    second block by [x^len(p)]. *)
Theorem fit_func_app (x : Qc) (p q : list Qc) :
  fit_func x (p ++ q) = fit_func x p + x ^ length p * fit_func x q.
Proof.
  induction p as [|p0 p IH].
  - simpl app. simpl length. change (fit_func x []) with 0. simpl. ring.
  - simpl app. rewrite !fit_func_cons, IH. simpl. ring.
Qed.

Lemma fit_func_pad (x : Qc) (p : list Qc) (k : nat) :
  fit_func x (p ++ repeat 0 k) = fit_func x p.
Proof.
  induction p as [|p0 p IH].
  - simpl app. now rewrite fit_func_zeros.
  - simpl app. now rewrite !fit_func_cons, IH.
Qed.

(** X5.  On exact numbers ([Fraction] data and coefficients), padding a
    coefficient vector with zero coefficients of higher degree changes
    neither the model nor the outcome of [compute_errors]. *)
Theorem compute_errors_pad (xs ys p : list Qc) (k : nat) :
  (forall x, fit_func x (p ++ repeat 0 k) = fit_func x p)
  /\ compute_errors fit_func xs ys (p ++ repeat 0 k)
     = compute_errors fit_func xs ys p.
Proof.
  split; [intros x; apply fit_func_pad|].
  unfold compute_errors. do 2 f_equal.
  apply map_ext. intros [x y]. now rewrite fit_func_pad.
Qed.

(** X6.  On exact numbers [fit_func] is linear in its parameters. *)
Theorem fit_func_linear (x a b : Qc) (p q : list Qc) :
  length p = length q ->
  fit_func x (add_pointwise (map (Qcmult a) p) (map (Qcmult b) q))
  = a * fit_func x p + b * fit_func x q.
Proof.
  revert q. induction p as [|p0 p IH]; intros [|q0 q] Hlen;
    try discriminate Hlen.
  - simpl. change (fit_func x []) with 0. ring.
  - simpl map. simpl add_pointwise. rewrite !fit_func_cons.
    rewrite IH by (now injection Hlen). ring.
Qed.

Lemma fit_func_linear_witness :
  length [of_int 1; of_int 2] = length [of_int 3; of_int 4] /\
  fit_func (of_int 2)
    (add_pointwise (map (Qcmult (of_int 5)) [of_int 1; of_int 2])
                   (map (Qcmult (of_int 7)) [of_int 3; of_int 4]))
  = of_int 5 * fit_func (of_int 2) [of_int 1; of_int 2]
    + of_int 7 * fit_func (of_int 2) [of_int 3; of_int 4].
Proof.
  split; [reflexivity | apply fit_func_linear; reflexivity].
Defined.

(** X7.  At [x = 0] the model gives the constant coefficient ([0**0] is [1]),
    at [x = 1] the sum of the coefficients. *)
Theorem fit_func_at_zero_and_one (p : list Qc) :
  fit_func 0 p = coeff p 0 /\ fit_func 1 p = py_sum p.
Proof.
  split.
  - destruct p as [|p0 p]; [reflexivity|].
    rewrite fit_func_cons. unfold coeff. simpl. ring.
  - induction p as [|p0 p IH]; [reflexivity|].
    rewrite fit_func_cons, py_sum_cons, IH. ring.
Qed.

(** ** Error evaluator: further facts *)

Lemma Ok_inj {A} (a b : A) : Ok a = Ok b -> a = b.
Proof.
  intros H.
  exact (f_equal (fun r => match r with Ok v => v | Raise _ => a end) H).
Qed.

(** X9.  On [Fraction] data and coefficients, whenever [xs] is not empty
    the error of the polynomial model exists and is not negative. *)
Theorem compute_errors_nonneg (p xs ys : list Qc) :
  xs <> [] ->
  exists mse, compute_errors fit_func xs ys p = Ok mse /\ 0 <= mse.
Proof.
  intros Hne. rewrite compute_errors_unfold.
  rewrite py_truediv_ok by now apply of_len_nonzero.
  eexists. split; [reflexivity|].
  apply Qcdiv_nonneg; [apply squared_residuals_nonneg | now apply of_len_pos].
Qed.

Lemma compute_errors_nonneg_witness :
  [of_int 1; of_int 2] <> [] /\
  exists mse,
    compute_errors fit_func [of_int 1; of_int 2] [of_int 5] [of_int 1]
    = Ok mse /\ 0 <= mse.
Proof.
  assert (Hne : [of_int 1; of_int 2] <> []) by discriminate.
  split; [exact Hne|].
  exact (@compute_errors_nonneg [of_int 1] [of_int 1; of_int 2]
           [of_int 5] Hne).
Defined.

(** X10.  On [Fraction] data and coefficients of one non-zero length, the
    error of the polynomial model is [0] exactly when the polynomial
    passes through every point. *)
Theorem compute_errors_zero_iff (p xs ys : list Qc) :
  length xs = length ys -> xs <> [] ->
  (compute_errors fit_func xs ys p = Ok 0
   <-> forall i, (i < length xs)%nat -> nth i ys 0 = fit_func (nth i xs 0) p).
Proof.
  intros Hlen Hne. rewrite compute_errors_unfold.
  rewrite py_truediv_ok by now apply of_len_nonzero.
  rewrite <- Hlen, Nat.min_id.
  rewrite <- (squared_residuals_zero_iff (fun x => fit_func x p) xs ys
                (length xs)).
  rewrite <- (@Qcdiv_zero_iff
                (squared_residuals (fun x => fit_func x p) xs ys (length xs))
                (of_len xs)) by now apply of_len_nonzero.
  split; [apply Ok_inj | intros ->; reflexivity].
Qed.

Lemma compute_errors_zero_iff_witness :
  length [of_int 0; of_int 1] = length [of_int 1; of_int 3] /\
  [of_int 0; of_int 1] <> [] /\
  (compute_errors fit_func [of_int 0; of_int 1] [of_int 1; of_int 3]
     [of_int 1; of_int 2] = Ok 0
   <-> forall i, (i < length [of_int 0; of_int 1])%nat ->
                 nth i [of_int 1; of_int 3] 0
                 = fit_func (nth i [of_int 0; of_int 1] 0)
                     [of_int 1; of_int 2]).
Proof.
  assert (Hlen : length [of_int 0; of_int 1] = length [of_int 1; of_int 3])
    by reflexivity.
  assert (Hne : [of_int 0; of_int 1] <> []) by discriminate.
  split; [exact Hlen|]. split; [exact Hne|].
  exact (@compute_errors_zero_iff [of_int 1; of_int 2]
           [of_int 0; of_int 1] [of_int 1; of_int 3] Hlen Hne).
Defined.

Lemma py_sum_permutation (l l' : list Qc) :
  Permutation l l' -> py_sum l = py_sum l'.
Proof.
  induction 1 as [|a l l' _ IH|a b l|l l' l'' _ IH1 _ IH2].
  - reflexivity.
  - now rewrite !py_sum_cons, IH.
  - rewrite !py_sum_cons. ring.
  - now rewrite IH1.
Qed.

(** X12.  On [Fraction] data and coefficients the error of the polynomial
    model does not depend on the order in which the sample points are
    listed. *)
Theorem compute_errors_permutation (p xs ys xs' ys' : list Qc) :
  Permutation (combine xs ys) (combine xs' ys') ->
  length xs = length xs' ->
  compute_errors fit_func xs ys p = compute_errors fit_func xs' ys' p.
Proof.
  intros Hperm Hlen. unfold compute_errors, of_len. rewrite Hlen.
  f_equal. apply py_sum_permutation. now apply Permutation_map.
Qed.

Lemma compute_errors_permutation_witness :
  Permutation (combine [of_int 0; of_int 1] [of_int 1; of_int 4])
              (combine [of_int 1; of_int 0] [of_int 4; of_int 1]) /\
  length [of_int 0; of_int 1] = length [of_int 1; of_int 0] /\
  compute_errors fit_func [of_int 0; of_int 1] [of_int 1; of_int 4]
    [of_int 1; of_int 2]
  = compute_errors fit_func [of_int 1; of_int 0] [of_int 4; of_int 1]
      [of_int 1; of_int 2].
Proof.
  assert (Hperm : Permutation
                    (combine [of_int 0; of_int 1] [of_int 1; of_int 4])
                    (combine [of_int 1; of_int 0] [of_int 4; of_int 1]))
    by apply perm_swap.
  split; [exact Hperm|]. split; [reflexivity|].
  exact (@compute_errors_permutation [of_int 1; of_int 2] _ _ _ _
           Hperm eq_refl).
Defined.

(** ** Data generator: further facts *)

Lemma Qcmult_nonneg (a b : Qc) : 0 <= a -> 0 <= b -> 0 <= a * b.
Proof.
  intros Ha Hb. replace 0 with (0 * b) by ring.
  now apply Qcmult_le_compat_r.
Qed.

Lemma Qcle_sub_nonneg (a b : Qc) : a <= b <-> 0 <= b - a.
Proof. apply Qcle_minus_iff. Qed.

(** A point [lo + (hi - lo) * u] with [u] in the unit interval lies
    between [lo] and [hi], whichever of the two is smaller. *)
Lemma affine_between (lo hi u : Qc) :
  0 <= u -> u <= 1 ->
  (lo <= hi -> lo <= lo + (hi - lo) * u /\ lo + (hi - lo) * u <= hi)
  /\ (hi <= lo -> hi <= lo + (hi - lo) * u /\ lo + (hi - lo) * u <= lo).
Proof.
  intros Hu0 Hu1.
  assert (Hu1' : 0 <= 1 - u) by exact (proj1 (Qcle_sub_nonneg u 1) Hu1).
  split; intros Hord; apply (proj1 (Qcle_sub_nonneg _ _)) in Hord; split;
    apply (proj2 (Qcle_sub_nonneg _ _)).
  - replace (lo + (hi - lo) * u - lo) with ((hi - lo) * u) by ring.
    now apply Qcmult_nonneg.
  - replace (hi - (lo + (hi - lo) * u)) with ((hi - lo) * (1 - u)) by ring.
    now apply Qcmult_nonneg.
  - replace (lo + (hi - lo) * u - hi) with ((lo - hi) * (1 - u)) by ring.
    now apply Qcmult_nonneg.
  - replace (lo - (lo + (hi - lo) * u)) with ((lo - hi) * u) by ring.
    now apply Qcmult_nonneg.
Qed.

Lemma add_pointwise_zero_noise (a zs : list Qc) :
  length a = length zs ->
  add_pointwise a (map (fun z => 0 + 0 * z) zs) = a.
Proof.
  revert zs. induction a as [|u a IH]; intros [|z zs] Hlen;
    try discriminate Hlen; [reflexivity|].
  simpl. rewrite IH by (now injection Hlen). f_equal. ring.
Qed.

Section GeneratorFacts.

Variable rng : Type.
Variable seed_state : Z -> rng.
Variable next_double : rng -> Qc * rng.
Variable next_gauss : rng -> Qc * rng.
Variable solver :
  model -> list Qc -> list Qc -> list Qc -> Result (list Qc * covariance).

(** The primitive uniform draw lies in [[0, 1)]. *)
Hypothesis next_double_unit :
  forall st, 0 <= fst (next_double st) /\ fst (next_double st) < 1.

Local Abbreviation exec := (run seed_state next_double next_gauss solver).

(** X13.  The three outcomes of [generate_noisy_data].  A negative count is
    refused before anything is drawn.  A negative noise level is refused
    only after the x-values have been drawn, so the stream has moved on.
    Otherwise the call returns and has consumed [nr_points] doubles
    followed by [nr_points] normal deviates. *)
Theorem generate_noisy_data_outcomes (func : Qc -> Qc)
    (x_min x_max noise : Qc) (nr_points : Z) (st : rng) :
  ((nr_points < 0)%Z ->
   exec (generate_noisy_data func x_min x_max noise nr_points) st
   = (Raise ValueError, st))
  /\
  ((0 <= nr_points)%Z -> noise < 0 ->
   exec (generate_noisy_data func x_min x_max noise nr_points) st
   = (Raise ValueError, snd (draws next_double (Z.to_nat nr_points) st)))
  /\
  ((0 <= nr_points)%Z -> 0 <= noise ->
   exists x y,
     exec (generate_noisy_data func x_min x_max noise nr_points) st
     = (Ok (x, y),
        snd (draws next_gauss (Z.to_nat nr_points)
               (snd (draws next_double (Z.to_nat nr_points) st))))).
Proof.
  split; [|split].
  - intros Hneg. rewrite generate_noisy_data_run.
    now rewrite uniform_negative_size.
  - intros Hn Hnoise. rewrite generate_noisy_data_run. unfold uniform, normal.
    destruct (Z.ltb_spec nr_points 0) as [Hneg|_]; [lia|].
    destruct (draws next_double (Z.to_nat nr_points) st) as [us st1].
    destruct (Qclt_le_dec noise 0) as [_|Hpos]; [reflexivity|].
    exfalso. exact (Qclt_not_le _ _ Hnoise Hpos).
  - intros Hn Hnoise. eexists _, _.
    now apply generate_noisy_data_ok_run.
Qed.

(** X14.  With [noise = 0] the y-values are exactly [func] of the x-values. *)
Theorem generate_noisy_data_noiseless (func : Qc -> Qc) (x_min x_max : Qc)
    (nr_points : Z) (st : rng) :
  (0 <= nr_points)%Z ->
  exists x st',
    exec (generate_noisy_data func x_min x_max 0 nr_points) st
    = (Ok (x, map func x), st').
Proof.
  intros Hn.
  rewrite generate_noisy_data_ok_run by (exact Hn || apply Qcle_refl).
  eexists _, _. rewrite add_pointwise_zero_noise; [reflexivity|].
  now rewrite !length_map, !draws_length.
Qed.

Lemma draws_unit (n : nat) (st : rng) :
  Forall (fun u => 0 <= u /\ u <= 1) (fst (draws next_double n st)).
Proof.
  revert st. induction n as [|n IH]; intros st; simpl.
  - constructor.
  - pose proof (next_double_unit st) as [H0 H1].
    destruct (next_double st) as [v st1]. specialize (IH st1).
    destruct (draws next_double n st1) as [vs st2]. cbn [fst] in *.
    constructor; [split; [exact H0 | now apply Qclt_le_weak] | exact IH].
Qed.

(** X15.  The x-values lie between [x_min] and [x_max], in whichever order the
    two bounds were given. *)
Theorem generate_noisy_data_range (func : Qc -> Qc)
    (x_min x_max noise : Qc) (nr_points : Z) (st : rng) :
  (0 <= nr_points)%Z -> 0 <= noise ->
  exists x y st',
    exec (generate_noisy_data func x_min x_max noise nr_points) st
    = (Ok (x, y), st')
    /\ (x_min <= x_max -> Forall (fun v => x_min <= v /\ v <= x_max) x)
    /\ (x_max <= x_min -> Forall (fun v => x_max <= v /\ v <= x_min) x).
Proof.
  intros Hn Hnoise. rewrite generate_noisy_data_ok_run by assumption.
  eexists _, _, _. split; [reflexivity|].
  pose proof (draws_unit (Z.to_nat nr_points) st) as Hunit.
  split; intros Hord; rewrite Forall_map;
    (eapply Forall_impl; [|exact Hunit]); intros u [Hu0 Hu1];
    now apply (affine_between x_min x_max Hu0 Hu1).
Qed.

End GeneratorFacts.

(** ** The notebook's cells *)

Lemma py_range_length (start stop : Z) :
  length (py_range start stop) = Z.to_nat (stop - start).
Proof. unfold py_range. now rewrite length_map, length_seq. Qed.

Lemma py_range_1_7 : py_range 1 7 = [1; 2; 3; 4; 5; 6]%Z.
Proof. reflexivity. Qed.

Lemma collect_length {A B} (body : A -> Result B) (items : list A)
    (l : list B) :
  collect body items = Ok l -> length l = length items.
Proof.
  revert l. induction items as [|a items IH]; intros l; simpl.
  - intros H. apply Ok_inj in H. now subst l.
  - destruct (body a) as [b|e]; [|discriminate].
    destruct (collect body items) as [bs|e]; [|discriminate].
    intros H. apply Ok_inj in H. subst l. simpl. f_equal. now apply IH.
Qed.

Lemma collect_Forall2 {A B} (body : A -> Result B) (items : list A)
    (l : list B) :
  collect body items = Ok l -> Forall2 (fun a b => body a = Ok b) items l.
Proof.
  revert l. induction items as [|a items IH]; intros l; simpl.
  - intros H. apply Ok_inj in H. subst l. constructor.
  - destruct (body a) as [b|e] eqn:Hb; [|discriminate].
    destruct (collect body items) as [bs|e]; [|discriminate].
    intros H. apply Ok_inj in H. subst l. constructor; [exact Hb|].
    now apply IH.
Qed.

Lemma collect_first_failure {A B} (body : A -> Result B)
    (pre : list A) (a : A) (post : list A) (e : exn) :
  (forall a', In a' pre -> exists b, body a' = Ok b) ->
  body a = Raise e ->
  collect body (pre ++ a :: post) = Raise e.
Proof.
  intros Hpre Ha. induction pre as [|a' pre IH]; simpl.
  - now rewrite Ha.
  - destruct (Hpre a' (or_introl eq_refl)) as [b ->].
    rewrite IH by (intros a'' Ha''; apply Hpre; now right).
    reflexivity.
Qed.

Section CellFacts.

Variable rng : Type.
Variable seed_state : Z -> rng.
Variable next_double : rng -> Qc * rng.
Variable next_gauss : rng -> Qc * rng.
Variable solver :
  model -> list Qc -> list Qc -> list Qc -> Result (list Qc * covariance).

(** The solver returns as many parameters as its initial guess has. *)
Hypothesis solver_keeps_length :
  forall f xdata ydata p0 p_opt pcov,
    solver f xdata ydata p0 = Ok (p_opt, pcov) -> length p_opt = length p0.

Local Abbreviation exec := (run seed_state next_double next_gauss solver).

(** What one fit amounts to. *)
Local Abbreviation fit_outcome := (fun f xs ys (degree : Z) =>
  match solver f xs ys (ones degree) with
  | Ok (p_opt, _) => Ok p_opt
  | Raise e => Raise e
  end).

(** A comprehension over a body that leaves the random stream alone. *)
Lemma run_for_each_pure {A B} (body : A -> Core B) (pure : A -> Result B)
    (items : list A) (st : rng) :
  (forall a s, exec (body a) s = (pure a, s)) ->
  exec (for_each body items) st = (collect pure items, st).
Proof.
  intros Hbody. induction items as [|a items IH]; simpl.
  - reflexivity.
  - rewrite run_bind, Hbody. destruct (pure a) as [b|e]; [|reflexivity].
    rewrite run_bind, IH.
    destruct (collect pure items) as [bs|e]; reflexivity.
Qed.

Lemma p_opts_cell_run (x_train y_train : list Qc) (st : rng) :
  exec (p_opts_cell x_train y_train) st
  = (collect (fit_outcome fit_func x_train y_train) (py_range 1 7), st).
Proof.
  unfold p_opts_cell. apply run_for_each_pure.
  intros degree s. apply compute_params_run.
Qed.

Lemma fit_outcome_degree (f : model) (xs ys : list Qc) (degree : Z)
    (p_opt : list Qc) :
  (0 <= degree)%Z ->
  fit_outcome f xs ys degree = Ok p_opt -> shown_degree p_opt = degree.
Proof.
  intros Hd. cbv beta.
  destruct (solver f xs ys (ones degree)) as [[p pcov]|e] eqn:Hs;
    [|discriminate].
  intros H. apply Ok_inj in H. subst p.
  apply solver_keeps_length in Hs. unfold shown_degree.
  rewrite Hs, ones_length. lia.
Qed.

(** X17.  When the six fits succeed, there are six coefficient vectors, the
    random stream is untouched, and the degree [len(p_opt) - 1] that
    [show_fit] prints for each of them is the degree the error plots put
    on their x-axis, [1 .. 6]. *)
Theorem p_opts_cell_degrees (x_train y_train : list Qc) (st st' : rng)
    (p_opts : list (list Qc)) :
  exec (p_opts_cell x_train y_train) st = (Ok p_opts, st') ->
  length p_opts = 6%nat
  /\ st' = st
  /\ map shown_degree p_opts = degrees_cell p_opts
  /\ degrees_cell p_opts = [1; 2; 3; 4; 5; 6]%Z.
Proof.
  rewrite p_opts_cell_run. intros H.
  assert (Hc : collect (fit_outcome fit_func x_train y_train) (py_range 1 7)
               = Ok p_opts) by exact (f_equal fst H).
  assert (Hst : st = st') by exact (f_equal snd H).
  subst st'. clear H.
  pose proof (@collect_length _ _ _ _ _ Hc) as Hlen.
  rewrite py_range_length in Hlen. change (Z.to_nat (7 - 1)) with 6%nat in Hlen.
  apply collect_Forall2 in Hc. rewrite py_range_1_7 in Hc.
  assert (Hdeg : degrees_cell p_opts = [1; 2; 3; 4; 5; 6]%Z)
    by (unfold degrees_cell; now rewrite Hlen).
  split; [exact Hlen|]. split; [reflexivity|]. split; [|exact Hdeg].
  rewrite Hdeg.
  repeat match goal with
         | H : Forall2 _ (_ :: _) _ |- _ => inversion H; subst; clear H
         | H : Forall2 _ [] _ |- _ => inversion H; subst; clear H
         end.
  cbn [map].
  repeat match goal with
         | H : _ = Ok _ |- _ =>
             apply fit_outcome_degree in H; [rewrite H; clear H | lia]
         end.
  reflexivity.
Qed.

(** X18.  The comprehension stops at the first degree whose fit raises and
    raises that exception; no partial list of fits is returned. *)
Theorem p_opts_cell_first_failure (x_train y_train : list Qc) (st : rng)
    (degree : Z) (e : exn) :
  (1 <= degree < 7)%Z ->
  (forall d, (1 <= d < degree)%Z ->
             exists r, solver fit_func x_train y_train (ones d) = Ok r) ->
  solver fit_func x_train y_train (ones degree) = Raise e ->
  exec (p_opts_cell x_train y_train) st = (Raise e, st).
Proof.
  intros Hrange Hbefore Hfail. rewrite p_opts_cell_run. f_equal.
  assert (Hsplit : exists pre post,
             py_range 1 7 = pre ++ degree :: post
             /\ forall d, In d pre -> (1 <= d < degree)%Z).
  { rewrite py_range_1_7.
    assert (Hcases : (degree = 1 \/ degree = 2 \/ degree = 3 \/ degree = 4
                      \/ degree = 5 \/ degree = 6)%Z) by lia.
    destruct Hcases as [-> | [-> | [-> | [-> | [-> | ->]]]]].
    - exists [], [2; 3; 4; 5; 6]%Z. split; [reflexivity|]. simpl. tauto.
    - exists [1]%Z, [3; 4; 5; 6]%Z. split; [reflexivity|]. simpl. lia.
    - exists [1; 2]%Z, [4; 5; 6]%Z. split; [reflexivity|]. simpl. lia.
    - exists [1; 2; 3]%Z, [5; 6]%Z. split; [reflexivity|]. simpl. lia.
    - exists [1; 2; 3; 4]%Z, [6]%Z. split; [reflexivity|]. simpl. lia.
    - exists [1; 2; 3; 4; 5]%Z, []. split; [reflexivity|]. simpl. lia. }
  destruct Hsplit as (pre & post & -> & Hpre).
  apply collect_first_failure.
  - intros d Hd. destruct (Hbefore d (Hpre d Hd)) as [[p pcov] ->].
    now exists p.
  - now rewrite Hfail.
Qed.

(** X19.  Whenever the error cell returns, it has one error per fit, as
    many as [degrees] has entries; on an empty validation set with at
    least one fit it raises [ZeroDivisionError]. *)
Theorem errors_cell_lengths (x_val y_val : list Qc)
    (p_opts : list (list Qc)) :
  (forall errors,
      errors_cell x_val y_val p_opts = Ok errors ->
      length errors = length p_opts
      /\ length errors = length (degrees_cell p_opts))
  /\ (x_val = [] -> p_opts <> [] ->
      errors_cell x_val y_val p_opts = Raise ZeroDivisionError).
Proof.
  split.
  - intros errors Hc. unfold errors_cell in Hc.
    pose proof (@collect_length _ _ _ _ _ Hc) as Hlen.
    split; [exact Hlen|].
    unfold degrees_cell. rewrite py_range_length, Hlen. lia.
  - intros -> Hne. destruct p_opts as [|p_opt rest]; [now elim Hne|].
    reflexivity.
Qed.

End CellFacts.

(** ** The further facts on concrete inputs *)

Lemma noise_level_nonneg : 0 <= Q2Qc (1 # 5).
Proof. vm_compute. discriminate. Qed.

Lemma lcg_next_double_unit (s : Z) :
  0 <= fst (Lcg.next_double s) /\ fst (Lcg.next_double s) < 1.
Proof.
  unfold Lcg.next_double, Lcg.step. cbn [fst].
  pose proof (Z.mod_pos_bound (25173 * s + 13849) 65536 eq_refl) as Hb.
  set (m := ((25173 * s + 13849) mod 65536)%Z) in *.
  unfold Qcle, Qclt, Q2Qc. cbn [this]. rewrite !Qred_correct.
  unfold Qle, Qlt. cbn [Qnum Qden]. lia.
Qed.

Lemma lcg_solver_keeps_length (f : model) (xdata ydata p0 p_opt : list Qc)
    (pcov : covariance) :
  Lcg.solver f xdata ydata p0 = Ok (p_opt, pcov) -> length p_opt = length p0.
Proof.
  unfold Lcg.solver.
  destruct (Nat.ltb (length ydata) (length p0)); [discriminate|].
  intros H. apply Ok_inj in H. now injection H as <- _.
Qed.

Lemma generate_noisy_data_outcomes_witness :
  (-1 < 0)%Z /\
  Lcg.exec (generate_noisy_data (fun v => v * v) 0 1 (Q2Qc (1 # 5)) (-1)) 7%Z
  = (Raise ValueError, 7%Z).
Proof.
  assert (Hneg : (-1 < 0)%Z) by lia.
  split; [exact Hneg|].
  exact (proj1 (@generate_noisy_data_outcomes Z Lcg.seed_state
                  Lcg.next_double Lcg.next_gauss Lcg.solver (fun v => v * v)
                  0 1 (Q2Qc (1 # 5)) (-1)%Z 7%Z) Hneg).
Defined.

Lemma generate_noisy_data_noiseless_witness :
  (0 <= 3)%Z /\
  exists x st',
    Lcg.exec (generate_noisy_data (fun v => v * v) 0 1 0 3) 0%Z
    = (Ok (x, map (fun v => v * v) x), st').
Proof.
  assert (Hn : (0 <= 3)%Z) by lia.
  split; [exact Hn|].
  exact (@generate_noisy_data_noiseless Z Lcg.seed_state Lcg.next_double
           Lcg.next_gauss Lcg.solver (fun v => v * v) 0 1 3%Z 0%Z Hn).
Defined.

Lemma generate_noisy_data_range_witness :
  (forall s, 0 <= fst (Lcg.next_double s) /\ fst (Lcg.next_double s) < 1) /\
  (0 <= 3)%Z /\ 0 <= Q2Qc (1 # 5) /\
  exists x y st',
    Lcg.exec (generate_noisy_data (fun v => v * v) 1 (Q2Qc (3 # 2))
                (Q2Qc (1 # 5)) 3) 0%Z
    = (Ok (x, y), st')
    /\ (1 <= Q2Qc (3 # 2) ->
        Forall (fun v => 1 <= v /\ v <= Q2Qc (3 # 2)) x)
    /\ (Q2Qc (3 # 2) <= 1 ->
        Forall (fun v => Q2Qc (3 # 2) <= v /\ v <= 1) x).
Proof.
  assert (Hn : (0 <= 3)%Z) by lia.
  split; [exact lcg_next_double_unit|].
  split; [exact Hn|]. split; [exact noise_level_nonneg|].
  exact (@generate_noisy_data_range Z Lcg.seed_state Lcg.next_double
           Lcg.next_gauss Lcg.solver lcg_next_double_unit (fun v => v * v)
           1 (Q2Qc (3 # 2)) (Q2Qc (1 # 5)) 3%Z 0%Z Hn noise_level_nonneg).
Defined.

Lemma p_opts_cell_degrees_witness :
  (forall f xdata ydata p0 p_opt pcov,
      Lcg.solver f xdata ydata p0 = Ok (p_opt, pcov) ->
      length p_opt = length p0) /\
  exists p_opts st',
    Lcg.exec (p_opts_cell (map of_int [0; 1; 2; 3; 4; 5; 6]%Z)
                (map of_int [5; 8; 9; 8; 5; 0; -7]%Z)) 0%Z
    = (Ok p_opts, st')
    /\ length p_opts = 6%nat
    /\ st' = 0%Z
    /\ map shown_degree p_opts = degrees_cell p_opts
    /\ degrees_cell p_opts = [1; 2; 3; 4; 5; 6]%Z.
Proof.
  split; [exact lcg_solver_keeps_length|].
  eexists _, _.
  refine ((fun H => conj H
             (@p_opts_cell_degrees Z Lcg.seed_state Lcg.next_double
                Lcg.next_gauss Lcg.solver lcg_solver_keeps_length
                (map of_int [0; 1; 2; 3; 4; 5; 6]%Z)
                (map of_int [5; 8; 9; 8; 5; 0; -7]%Z) 0%Z _ _ H)) _).
  vm_compute. reflexivity.
Defined.

Lemma p_opts_cell_first_failure_witness :
  (1 <= 3 < 7)%Z /\
  (forall d, (1 <= d < 3)%Z ->
     exists r,
       Lcg.solver fit_func (map of_int [0; 1; 2]%Z) (map of_int [5; 8; 9]%Z)
         (ones d) = Ok r) /\
  Lcg.solver fit_func (map of_int [0; 1; 2]%Z) (map of_int [5; 8; 9]%Z)
    (ones 3) = Raise TypeError /\
  Lcg.exec (p_opts_cell (map of_int [0; 1; 2]%Z) (map of_int [5; 8; 9]%Z)) 0%Z
  = (Raise TypeError, 0%Z).
Proof.
  assert (Hr : (1 <= 3 < 7)%Z) by lia.
  assert (Hbefore : forall d, (1 <= d < 3)%Z ->
            exists r,
              Lcg.solver fit_func (map of_int [0; 1; 2]%Z)
                (map of_int [5; 8; 9]%Z) (ones d) = Ok r).
  { intros d Hd. assert (Hc : d = 1%Z \/ d = 2%Z) by lia.
    destruct Hc as [-> | ->]; eexists; reflexivity. }
  assert (Hfail : Lcg.solver fit_func (map of_int [0; 1; 2]%Z)
                    (map of_int [5; 8; 9]%Z) (ones 3) = Raise TypeError)
    by reflexivity.
  split; [exact Hr|]. split; [exact Hbefore|]. split; [exact Hfail|].
  exact (@p_opts_cell_first_failure Z Lcg.seed_state Lcg.next_double
           Lcg.next_gauss Lcg.solver (map of_int [0; 1; 2]%Z)
           (map of_int [5; 8; 9]%Z) 0%Z 3%Z TypeError Hr Hbefore Hfail).
Defined.

Section NegativeDegree.

Variable rng : Type.
Variable seed_state : Z -> rng.
Variable next_double : rng -> Qc * rng.
Variable next_gauss : rng -> Qc * rng.
Variable solver :
  model -> list Qc -> list Qc -> list Qc -> Result (list Qc * covariance).

Local Abbreviation exec := (run seed_state next_double next_gauss solver).

(** X21.  A negative degree is not refused: [[1.0]*(degree + 1)] is then the
    empty list, and the solver is called with an empty initial guess. *)
Theorem compute_params_negative_degree (f : model) (xs ys : list Qc)
    (degree : Z) (st : rng) :
  (degree < 0)%Z ->
  ones degree = []
  /\ exec (compute_params f xs ys degree) st
     = (match solver f xs ys [] with
        | Ok (p_opt, _) => Ok p_opt
        | Raise e => Raise e
        end, st).
Proof.
  intros Hneg.
  assert (Hones : ones degree = []).
  { unfold ones. replace (Z.to_nat (degree + 1)) with 0%nat by lia.
    reflexivity. }
  split; [exact Hones|].
  rewrite compute_params_run. now rewrite Hones.
Qed.

End NegativeDegree.

Lemma compute_params_negative_degree_witness :
  (-2 < 0)%Z /\
  ones (-2) = [] /\
  Lcg.exec (compute_params fit_func [of_int 0] [of_int 1] (-2)) 0%Z
  = (match Lcg.solver fit_func [of_int 0] [of_int 1] [] with
     | Ok (p_opt, _) => Ok p_opt
     | Raise e => Raise e
     end, 0%Z).
Proof.
  assert (Hneg : (-2 < 0)%Z) by lia.
  split; [exact Hneg|].
  exact (@compute_params_negative_degree Z Lcg.seed_state Lcg.next_double
           Lcg.next_gauss Lcg.solver fit_func [of_int 0] [of_int 1]
           (-2)%Z 0%Z Hneg).
Defined.

Lemma errors_cell_lengths_witness :
  (exists errors,
      errors_cell [of_int 0; of_int 1] [of_int 5; of_int 8]
        [[of_int 1; of_int 1]; [of_int 5; of_int 4; - (1)]] = Ok errors
      /\ length errors = 2%nat
      /\ length errors
         = length (degrees_cell
                     [[of_int 1; of_int 1]; [of_int 5; of_int 4; - (1)]]))
  /\ (@nil Qc = [] /\ [[of_int 1; of_int 1]] <> []
      /\ errors_cell [] [of_int 5] [[of_int 1; of_int 1]]
         = Raise ZeroDivisionError).
Proof.
  split.
  - eexists.
    refine ((fun H => conj H
               (proj1 (errors_cell_lengths [of_int 0; of_int 1]
                         [of_int 5; of_int 8]
                         [[of_int 1; of_int 1]; [of_int 5; of_int 4; - (1)]])
                  _ H)) _).
    vm_compute. reflexivity.
  - assert (Hne : [[of_int 1; of_int 1]] <> []) by discriminate.
    split; [reflexivity|]. split; [exact Hne|].
    exact (proj2 (errors_cell_lengths [] [of_int 5] [[of_int 1; of_int 1]])
             eq_refl Hne).
Defined.
